(** * Shallow embedding of the archaeological agent pipeline (fll)

    Texts are modelled as [String.string] (ASCII characters); Python's
    [str] operations used by the code ([lower], [in], [endswith], slicing,
    [join], [len]) are written out below.  Remote services (the vision /
    text model, Drive, gTTS) and the file system are oracles recorded in a
    [world]; every remote call and every file or process access is logged
    as an [event] by a small writer monad, so that "no I/O" and "no call"
    statements are statements about the produced trace. *)

From Stdlib Require Import List String Ascii ZArith Bool Lia Arith.
From Stdlib Require Import Sorting.Sorted Sorting.Permutation.
Import ListNotations.
Open Scope list_scope.
Open Scope string_scope.
Open Scope nat_scope.

(* ------------------------------------------------------------------ *)
(** ** Python string operations *)

Module PyStr.

(** [str.lower] on ASCII characters. *)
Definition lower_char (c : ascii) : ascii :=
  let n := nat_of_ascii c in
  if (65 <=? n) && (n <=? 90) then ascii_of_nat (n + 32) else c.

Fixpoint lower (s : string) : string :=
  match s with
  | EmptyString => EmptyString
  | String c s' => String (lower_char c) (lower s')
  end.

(** [sub in s] *)
Fixpoint contains (sub s : string) : bool :=
  prefix sub s ||
  match s with
  | EmptyString => false
  | String _ s' => contains sub s'
  end.

(** [s.endswith(suf)] *)
Definition endswith (suf s : string) : bool :=
  let n := length s in
  let m := length suf in
  (m <=? n) && String.eqb (substring (n - m) m s) suf.

(** [s.startswith(pre)] *)
Definition startswith (pre s : string) : bool := prefix pre s.

(** [s[:n]] for [n >= 0] *)
Definition slice_to (n : nat) (s : string) : string := substring 0 n s.

(** [sep.join(l)] *)
Fixpoint join (sep : string) (l : list string) : string :=
  match l with
  | [] => ""
  | [x] => x
  | x :: l' => x ++ sep ++ join sep l'
  end.

Definition nl : string := String (ascii_of_nat 10) EmptyString.

(** [s.rfind(c)]: index of the last occurrence of [c], if any. *)
Fixpoint rfind (c : ascii) (s : string) : option nat :=
  match s with
  | EmptyString => None
  | String c' s' =>
      match rfind c s' with
      | Some i => Some (S i)
      | None => if Ascii.eqb c c' then Some 0 else None
      end
  end.

End PyStr.

(* ------------------------------------------------------------------ *)
(** ** Events and the writer monad *)

Set Warnings "-register-all".

(** A JSON value as returned by [json.loads]: objects are the dict's items
    in insertion order (distinct keys). *)
Inductive json : Type :=
| JNull
| JBool (b : bool)
| JNum (z : Z)
| JStr (s : string)
| JArr (l : list json)
| JObj (kv : list (string * json)).

Inductive event : Type :=
| ESubprocess (argv : list string)      (* subprocess.run *)
| EImageOpen (path : string)            (* PIL Image.open *)
| EImageSave (path : string)            (* PIL Image.save *)
| EFileRead (path : string)             (* open(path, 'rb').read() *)
| EVisionCall (mime : string) (path : string)  (* chat.completions.create with an image *)
| EExtractCall (analyses : list string) (* structured-extraction request *)
| EComposeCall (analyses : list string) (* narration request *)
| ESpeech (text : string)               (* gTTS(text=...) *)
| EAudioSave (path : string)            (* tts.save *)
| EDriveList (folder : string)          (* files().list *)
| EDriveGet (file_id : string)          (* files().get_media *).

Definition M (A : Type) : Type := (A * list event)%type.

Definition ret {A} (a : A) : M A := (a, []).
Definition bind {A B} (m : M A) (f : A -> M B) : M B :=
  let (a, t) := m in let (b, t') := f a in (b, app t t').
Definition tell (e : event) : M unit := (tt, [e]).

Notation "x <- m ;; k" := (bind m (fun x => k))
  (at level 61, m at next level, right associativity).
Notation "m ;;; k" := (bind m (fun _ => k))
  (at level 61, right associativity).

(** The oracle answers of the environment. *)
Record world : Type := {
  sips_ok : string -> bool;                 (* sips exits 0 and the .jpg exists *)
  pil_ok : string -> bool;                  (* PIL opens, converts and saves *)
  read_ok : string -> bool;                 (* open(path,'rb').read() succeeds *)
  vision_reply : nat -> string -> option string;
      (* answer to the vision request for the i-th image; None = it raised *)
  extract_reply : option json;
      (* parsed JSON of the extraction reply; None = request or json.loads raised *)
  compose_reply : option string;            (* None = narration request raised *)
  error_message : string                    (* str(e) of a caught exception *)
}.

(* ------------------------------------------------------------------ *)
(** ** image_converter.py *)

Module Converter.
Import PyStr.

(** [os.path.basename] / [os.path.dirname] on posix paths. *)
Definition basename (p : string) : string :=
  match rfind "/" p with
  | Some i => substring (S i) (length p - S i) p
  | None => p
  end.

Fixpoint strip_trailing_slashes_rev (r : list ascii) : list ascii :=
  match r with
  | "/"%char :: r' => strip_trailing_slashes_rev r'
  | _ => r
  end.

Definition dirname (p : string) : string :=
  match rfind "/" p with
  | Some i =>
      let head := substring 0 (S i) p in
      let stripped :=
        string_of_list_ascii
          (rev (strip_trailing_slashes_rev (rev (list_ascii_of_string head)))) in
      if String.eqb stripped "" then head else stripped
  | None => ""
  end.

(** [Path(p).stem] *)
Definition stem (p : string) : string :=
  let name := basename p in
  match rfind "." name with
  | Some i => if (0 <? i) && (i <? length name - 1) then substring 0 i name else name
  | None => name
  end.

(** [os.path.join(a, b)] *)
Definition path_join (a b : string) : string :=
  if startswith "/" b then b
  else if String.eqb a "" || endswith "/" a then a ++ b
  else a ++ "/" ++ b.

Definition convert_to_jpg (W : world) (image_path : string) : M string :=
  let jpeg_path := path_join (dirname image_path) (stem image_path ++ ".jpg") in
  tell (ESubprocess ["sips"; "-s"; "format"; "jpeg"; "-s"; "formatOptions"; "95";
                     image_path; "--out"; jpeg_path]) ;;;
  if sips_ok W image_path then ret jpeg_path
  else
    tell (EImageOpen image_path) ;;;
    if pil_ok W image_path then tell (EImageSave jpeg_path) ;;; ret jpeg_path
    else ret image_path.

Definition is_jpg_name (image_path : string) : bool :=
  let image_path_lower := lower image_path in
  endswith ".jpg" image_path_lower || endswith ".jpeg" image_path_lower.

Definition ensure_jpg_format (W : world) (image_path : string) : M string :=
  if is_jpg_name image_path then ret image_path
  else convert_to_jpg W image_path.

End Converter.

(* ------------------------------------------------------------------ *)
(** ** image_analyzer.py *)

Module Analyzer.
Import PyStr Converter.

(** [Path(p).suffix] *)
Definition suffix (p : string) : string :=
  let name := basename p in
  match rfind "." name with
  | Some i => if (0 <? i) && (i <? length name - 1)
              then substring i (length name - i) name else ""
  | None => ""
  end.

Record analysis_result : Type := { success : bool; analysis : string }.

(** [ImageAnalyzer.analyze_image]; [i] is the index of the image in the run,
    used only to look up the oracle's reply. *)
Definition analyze_image (W : world) (i : nat) (image_path : string) : M analysis_result :=
  let failed := {| success := false;
                   analysis := "Could not analyze image: " ++ error_message W |} in
  jpg_path <- ensure_jpg_format W image_path ;;
  tell (EFileRead jpg_path) ;;;
  if negb (read_ok W jpg_path) then ret failed
  else
    let image_ext := lower (suffix jpg_path) in
    let mime_type :=
      if String.eqb image_ext ".jpg" || String.eqb image_ext ".jpeg" then "image/jpeg"
      else if String.eqb image_ext ".png" then "image/png"
      else "image/jpeg" in
    tell (EVisionCall mime_type jpg_path) ;;;
    match vision_reply W i jpg_path with
    | Some a => ret {| success := true; analysis := a |}
    | None => ret failed
    end.

(** Python [key in d] and [d[key]] on a dict. *)
Fixpoint dict_get (k : string) (kv : list (string * json)) : option json :=
  match kv with
  | [] => None
  | (k', v) :: kv' => if String.eqb k k' then Some v else dict_get k kv'
  end.

Definition dict_has (k : string) (kv : list (string * json)) : bool :=
  match dict_get k kv with Some _ => true | None => false end.

(** One value of the object-of-records shape (the [for key, value] loop). *)
Definition flatten_value (v : json) : list json :=
  match v with
  | JObj fs => if dict_has "name" fs then [v] else []
  | JArr l => l
  | _ => []
  end.

(** The parsing of the extraction reply in [extract_artifacts]
    (lines 196-214): the returned Python value. *)
Definition parse_extraction (result : json) : json :=
  match result with
  | JArr l => JArr l
  | JObj kv =>
      match dict_get "artifacts" kv with
      | Some v => v
      | None => JArr (flat_map (fun kv1 => flatten_value (snd kv1)) kv)
      end
  | _ => JArr []
  end.

Definition record (name time_period country additional_info : string) : json :=
  JObj [("name", JStr name); ("time_period", JStr time_period);
        ("country_of_origin", JStr country); ("additional_info", JStr additional_info)].

(** [analysis[:100] + '...' if len(analysis) > 100 else analysis] *)
Definition excerpt (analysis : string) : string :=
  if 100 <? length analysis then slice_to 100 analysis ++ "..." else analysis.

(** The records the keyword scan appends for one analysis (lines 220-263). *)
Definition keyword_records (analysis : string) : list json :=
  let analysis_lower := lower analysis in
  let info := excerpt analysis in
  ((if contains "coin" analysis_lower then
     let '(time_period, country) :=
       if contains "penny" analysis_lower || contains "dime" analysis_lower
          || contains "modern" analysis_lower
       then ("Modern (2000-2024)", "United States")
       else ("Unknown (possibly Ancient)", "Unknown") in
     [record "Coin" time_period country info]
   else [])
  ++ (if contains "pot" analysis_lower || contains "vessel" analysis_lower then
        [record "Brass Pot" "Medieval to Modern (1000-1800 CE)" "Middle East or Europe" info]
      else [])
  ++ (if contains "sword" analysis_lower then
        [record "Sword" "Medieval to Ancient (500 BCE - 1500 CE)" "Europe or Middle East" info]
      else [])
  ++ (if contains "bone" analysis_lower then
        [record "Bone" "Unknown (Prehistoric to Modern)" "Unknown" info]
      else [])
  ++ (if contains "drawing" analysis_lower || contains "carving" analysis_lower then
        [record "Stone Drawing" "Prehistoric to Ancient (3000 BCE - 500 CE)"
                "Various (depends on style)" info]
      else []))%list.

Definition extract_fallback (all_analyses : list string) : list json :=
  flat_map keyword_records all_analyses.

(** [ImageAnalyzer.extract_artifacts] *)
Definition extract_artifacts (W : world) (all_analyses : list string) : M json :=
  tell (EExtractCall all_analyses) ;;;
  match extract_reply W with
  | Some result => ret (parse_extraction result)
  | None => ret (JArr (extract_fallback all_analyses))
  end.

(** The [for i, image_path in enumerate(image_paths, 1)] loop (lines 290-300):
    returns [(all_analyses, jpg_image_paths)]. *)
Fixpoint analyze_loop (W : world) (i : nat) (image_paths : list string)
  : M (list string * list string) :=
  match image_paths with
  | [] => ret ([], [])
  | image_path :: rest =>
      jpg_path <- ensure_jpg_format W image_path ;;
      result <- analyze_image W i jpg_path ;;
      acc <- analyze_loop W (S i) rest ;;
      ret (app (if success result then [analysis result] else []) (fst acc),
           jpg_path :: snd acc)
  end.

(** [ImageAnalyzer.analyze_multiple_images]: [(narration_text, jpg_image_paths, artifacts)]. *)
Definition analyze_multiple_images (W : world) (image_paths : list string)
  : M (string * list string * json) :=
  acc <- analyze_loop W 1 image_paths ;;
  let all_analyses := fst acc in
  let jpg_image_paths := snd acc in
  match all_analyses with
  | [] => ret ("Unable to analyze any images.", jpg_image_paths, JArr [])
  | _ =>
      artifacts <- extract_artifacts W all_analyses ;;
      tell (EComposeCall all_analyses) ;;;
      match compose_reply W with
      | Some narration_text => ret (narration_text, jpg_image_paths, artifacts)
      | None =>
          let narration_text := join (nl ++ nl) all_analyses in
          ret (narration_text, jpg_image_paths, artifacts)
      end
  end.

End Analyzer.

(* ------------------------------------------------------------------ *)
(** ** audio_generator.py *)

Module Audio.
Import PyStr.

(** The text passed to [gTTS] (lines 54-58). *)
Definition speech_text (text : string) : string :=
  let max_length := 5000 in
  if max_length <? length text then slice_to max_length text ++ "..." else text.

(** [AudioGenerator.text_to_speech]: [gtts_available] is [gTTS is not None],
    [tts_ok] says whether [gTTS(...)] and [tts.save] succeed. *)
Definition text_to_speech (gtts_available tts_ok : bool) (text output_path : string)
  : M bool :=
  if negb gtts_available then ret false
  else
    tell (ESpeech (speech_text text)) ;;;
    if tts_ok then tell (EAudioSave output_path) ;;; ret true
    else ret false.

End Audio.

(* ------------------------------------------------------------------ *)
(** ** google_drive.py *)

Module Drive.
Import PyStr.

(** One item of the [files().list] reply; [name] and [id] are always
    present (they are requested fields), the others may be absent. *)
Record drive_file : Type := {
  file_id : string;
  name : string;
  mimeType : option string;
  modifiedTime : option string;
  createdTime : option string
}.

Record drive : Type := {
  listing : option (list drive_file);   (* None = HttpError *)
  download_ok : string -> bool          (* get_media download of an id succeeds *)
}.

(** [config.IMAGE_EXTENSIONS] *)
Definition IMAGE_EXTENSIONS : list string :=
  [".jpg"; ".jpeg"; ".png"; ".heic"; ".HEIC"; ".gif"; ".bmp"; ".webp"].

Definition opt_default (d : string) (o : option string) : string :=
  match o with Some s => s | None => d end.

Definition is_image (file : drive_file) : bool :=
  let file_name := name file in
  let mime_type := opt_default "" (mimeType file) in
  existsb (fun ext => endswith (lower ext) (lower file_name)) IMAGE_EXTENSIONS
  || startswith "image/" mime_type.

(** [file.get('modifiedTime') or file.get('createdTime', '')] *)
Definition get_timestamp (file : drive_file) : string :=
  match modifiedTime file with
  | Some m => if String.eqb m "" then opt_default "" (createdTime file) else m
  | None => opt_default "" (createdTime file)
  end.

(** [list.sort(key=get_timestamp, reverse=True)]: a stable sort into
    descending key order (equal keys keep their relative order), written as
    an insertion sort that inserts each element after all elements whose key
    is greater or equal. *)
Fixpoint ins_desc (x : drive_file) (s : list drive_file) : list drive_file :=
  match s with
  | [] => [x]
  | y :: s' =>
      if String.leb (get_timestamp x) (get_timestamp y) then y :: ins_desc x s'
      else x :: s
  end.

Definition sort_desc (l : list drive_file) : list drive_file :=
  fold_left (fun s x => ins_desc x s) l [].

(** Python [l[:n]] for an int [n]. *)
Definition py_slice_to {A} (n : Z) (l : list A) : list A :=
  if (0 <=? n)%Z then firstn (Z.to_nat n) l
  else firstn (List.length l - Z.to_nat (- n)) l.

Definition list_files_in_folder (D : drive) (folder_id : string) : M (list drive_file) :=
  tell (EDriveList folder_id) ;;;
  match listing D with Some files => ret files | None => ret [] end.

Definition download_file (D : drive) (file : drive_file) (output_dir : string)
  : M (option string) :=
  tell (EDriveGet (file_id file)) ;;;
  if download_ok D (file_id file)
  then ret (Some (Converter.path_join output_dir (name file)))
  else ret None.

Fixpoint download_all (D : drive) (output_dir : string) (fs : list drive_file)
  : M (list string) :=
  match fs with
  | [] => ret []
  | file :: fs' =>
      path <- download_file D file output_dir ;;
      rest <- download_all D output_dir fs' ;;
      ret (match path with Some p => p :: rest | None => rest end)
  end.

(** The files whose download is attempted. *)
Definition selected_files (files : list drive_file) (num_images : Z) : list drive_file :=
  py_slice_to num_images (sort_desc (filter is_image files)).

Definition download_recent_images (D : drive) (folder_id : string) (num_images : Z)
  (output_dir : string) : M (list string) :=
  files <- list_files_in_folder D folder_id ;;
  download_all D output_dir (selected_files files num_images).

End Drive.

(* ------------------------------------------------------------------ *)
(** ** main.py *)

Module Main.

Inductive py_exn : Type :=
| ValueError
| KeyboardInterrupt
| SystemExit (code : Z)
| OtherError.

(** [except Exception] catches everything but [KeyboardInterrupt] and
    [SystemExit] (which derive from [BaseException] only). *)
Definition is_Exception (e : py_exn) : bool :=
  match e with KeyboardInterrupt | SystemExit _ => false | _ => true end.

Inductive pyval : Type :=
| PStr (s : string)
| PList (l : list pyval)
| PTuple (l : list pyval)
| PJson (j : json).

(** The tuple [analyze_multiple_images] returns. *)
Definition py_of_analysis (r : string * list string * json) : pyval :=
  let '(narration, jpgs, artifacts) := r in
  PTuple [PStr narration; PList (map PStr jpgs); PJson artifacts].

(** [narration_text, jpg_image_paths = v] *)
Definition unpack2 (v : pyval) : py_exn + (pyval * pyval) :=
  match v with
  | PTuple [a; b] => inr (a, b)
  | PList [a; b] => inr (a, b)
  | _ => inl ValueError
  end.

Inductive main_event : Type :=
| MIo (e : event)
| MAnalyzeStep
| MAudioStep
| MPresentationStep
| MOpenBrowser
| MHandled (e : py_exn)       (* printed by an [except] clause of [main] *)
| MCleanup.

Record main_env : Type := {
  num_images : Z;
  auth_result : option py_exn;      (* GoogleDriveDownloader() : None = connected *)
  drive_env : Drive.drive;
  api_key_set : bool;               (* --openai-key or OPENAI_API_KEY *)
  analyzer_world : world;
  gtts_available : bool;
  tts_ok : bool;
  presentation_result : option py_exn (* create_presentation : None = written *)
}.

Definition DRIVE_FOLDER_ID : string := "1G0Pi9LF9rAHa9nWKO-EInp1MkgYx_wkM".

Definition lift (t : list event) : list main_event := map MIo t.

(** The body of the [try] block: its trace and either normal completion
    ([None]) or the exception it raises. *)
Definition main_try (E : main_env) : list main_event * option py_exn :=
  match auth_result E with
  | Some e => ([], Some e)
  | None =>
  let '(image_paths, t1) :=
    Drive.download_recent_images (drive_env E) DRIVE_FOLDER_ID (num_images E)
                                 "/tmp/archaeological_agent_" in
  match image_paths with
  | [] => (lift t1, None)
  | _ =>
  if negb (api_key_set E) then (lift t1, Some (SystemExit 1))
  else
  let '(result, t2) := Analyzer.analyze_multiple_images (analyzer_world E) image_paths in
  let tr := (lift t1 ++ MAnalyzeStep :: lift t2)%list in
  let narration_result := py_of_analysis result in
  let unpacked :=
    match narration_result with
    | PTuple _ => unpack2 narration_result
    | v => inr (v, PList (map PStr image_paths))
    end in
  match unpacked with
  | inl e => (tr, Some e)
  | inr (narration_text, _) =>
      let '(ok, t3) :=
        match narration_text with
        | PStr s => Audio.text_to_speech (gtts_available E) (tts_ok E) s
                                         "archaeological_narration.mp3"
        | _ => ret false
        end in
      let tr := (tr ++ MAudioStep :: lift t3)%list in
      if negb ok then (tr, None)
      else
        let tr := (tr ++ [MPresentationStep])%list in
        match presentation_result E with
        | Some e => (tr, Some e)
        | None => ((tr ++ [MOpenBrowser])%list, None)
        end
  end
  end
  end.

(** [main()] run as a script: the process exit code and the trace. *)
Definition run_main (E : main_env) : Z * list main_event :=
  if (num_images E <? 1)%Z then (1%Z, [])
  else
    let '(tr, outcome) := main_try E in
    match outcome with
    | None => (0%Z, (tr ++ [MCleanup])%list)
    | Some e =>
        if is_Exception e || match e with KeyboardInterrupt => true | _ => false end
        then (0%Z, (tr ++ [MHandled e; MCleanup])%list)
        else
          let code := match e with SystemExit c => c | _ => 1%Z end in
          (code, (tr ++ [MCleanup])%list)
    end.

End Main.

(* ------------------------------------------------------------------ *)
(** ** presentation.py: the data [create_presentation] embeds *)

Module Presentation.
Import PyStr Converter Analyzer.

(** The file system as [create_presentation] sees it: [os.path.exists] and
    [base64.b64encode(f.read()).decode('utf-8')] of an existing file. *)
Record fs_env : Type := {
  path_exists : string -> bool;
  b64_contents : string -> string
}.

(** One entry [{'data': ..., 'mime': ..., 'name': ...}] of [image_data_list]. *)
Record slide : Type := { slide_data : string; slide_mime : string; slide_name : string }.

(** The image MIME table [.get(ext, 'image/jpeg')]. *)
Definition image_mime (ext : string) : string :=
  if String.eqb ext ".jpg" then "image/jpeg"
  else if String.eqb ext ".jpeg" then "image/jpeg"
  else if String.eqb ext ".png" then "image/png"
  else if String.eqb ext ".gif" then "image/gif"
  else if String.eqb ext ".webp" then "image/webp"
  else "image/jpeg".

(** The loop over [image_paths] (lines 34-51). *)
Fixpoint image_data_list (F : fs_env) (image_paths : list string) : list slide :=
  match image_paths with
  | [] => []
  | img_path :: rest =>
      if path_exists F img_path then
        {| slide_data := b64_contents F img_path;
           slide_mime := image_mime (lower (suffix img_path));
           slide_name := basename img_path |} :: image_data_list F rest
      else image_data_list F rest
  end.

(** The audio MIME table [.get(ext, 'audio/mpeg')]. *)
Definition audio_mime_of (ext : string) : string :=
  if String.eqb ext ".mp3" then "audio/mpeg"
  else if String.eqb ext ".wav" then "audio/wav"
  else if String.eqb ext ".ogg" then "audio/ogg"
  else "audio/mpeg".

(** [(audio_data, audio_mime)] (lines 54-68). *)
Definition audio_part (F : fs_env) (audio_path : string) : option string * string :=
  if path_exists F audio_path
  then (Some (b64_contents F audio_path), audio_mime_of (lower (suffix audio_path)))
  else (None, "audio/mpeg").

End Presentation.

(* ================================================================== *)
(** * Observations used to state the properties *)

(** Per-input outcomes of the analysis loop and remote calls in a trace. *)
Module PipelineObs.
Import PyStr Converter Analyzer.

(** The path [ensure_jpg_format] hands back for an input path. *)
Definition normalized (W : world) (p : string) : string := fst (ensure_jpg_format W p).

(** The finding contributed by the input [p] at position [i] (1-based):
    the analysis of its normalized path when recognition succeeds. *)
Definition recognized (W : world) (i : nat) (p : string) : option string :=
  let r := fst (analyze_image W i (normalized W p)) in
  if success r then Some (analysis r) else None.

Fixpoint findings (W : world) (i : nat) (ps : list string) : list string :=
  match ps with
  | [] => []
  | p :: ps' =>
      match recognized W i p with
      | Some a => a :: findings W (S i) ps'
      | None => findings W (S i) ps'
      end
  end.

(** Remote model calls of the extraction and narration stages. *)
Definition is_model_call (e : event) : bool :=
  match e with EExtractCall _ | EComposeCall _ => true | _ => false end.

Definition no_model_call (tr : list event) : Prop :=
  forallb (fun e => negb (is_model_call e)) tr = true.

End PipelineObs.

(** Records of the extraction result. *)
Module ParseObs.
Import Analyzer.

(** [record['name'] == n] for a record (dict) of the result. *)
Definition name_is (n : string) (r : json) : bool :=
  match r with
  | JObj fs => match dict_get "name" fs with
               | Some (JStr s) => String.eqb s n
               | _ => false
               end
  | _ => false
  end.

Definition has_name (r : json) : bool :=
  match r with JObj fs => dict_has "name" fs | _ => false end.

(** The records a value of an object-of-records contributes when read as
    "a record or an array of records". *)
Definition record_group (v : json) : list json :=
  match v with JArr l => l | r => [r] end.

Definition sword_record : json :=
  record "Sword" "Medieval (1000-1500 CE)" "Europe or Middle East" "Found near the center".

Definition unnamed_record : json :=
  JObj [("time_period", JStr "Modern (2024)"); ("country_of_origin", JStr "United States");
        ("additional_info", JStr "Modern penny")].

End ParseObs.

(** Orders on Drive files and a sample listing. *)
Module DriveObs.
Import PyStr Drive.

(** [a] may precede [b] in a list sorted by [get_timestamp], newest first. *)
Definition key_ge (a b : drive_file) : Prop :=
  String.leb (get_timestamp b) (get_timestamp a) = true.

Definition created_key (f : drive_file) : string := opt_default "" (createdTime f).

(** Newest key first, ties broken by the newest created time. *)
Definition lex_ge (a b : drive_file) : Prop :=
  key_ge a b /\
  (get_timestamp a = get_timestamp b -> String.leb (created_key b) (created_key a) = true).

Definition key_eqb (k : string) (f : drive_file) : bool := String.eqb (get_timestamp f) k.

Definition step (s : list drive_file) (x : drive_file) : list drive_file := ins_desc x s.

(** The listed files ([list_files_in_folder] returns [[]] on an HttpError). *)
Definition listed (D : drive) : list drive_file :=
  match listing D with Some files => files | None => [] end.

(** The files whose paths [download_recent_images] returns. *)
Definition downloaded_files (D : drive) (files : list drive_file) (num_images : Z)
  : list drive_file :=
  filter (fun f => download_ok D (file_id f)) (selected_files files num_images).

Definition f_old : drive_file :=
  {| file_id := "1"; name := "old.jpg"; mimeType := Some "image/jpeg";
     modifiedTime := Some "2024-05-01T10:00:00.000Z";
     createdTime := Some "2024-01-01T09:00:00.000Z" |}.

Definition f_new : drive_file :=
  {| file_id := "2"; name := "new.jpg"; mimeType := Some "image/jpeg";
     modifiedTime := Some "2024-05-01T10:00:00.000Z";
     createdTime := Some "2024-03-01T09:00:00.000Z" |}.

Definition drive_tie : drive :=
  {| listing := Some [f_old; f_new]; download_ok := fun _ => true |}.

(** The same two files in the order the Drive request asks for
    ([modifiedTime desc,createdTime desc]); the download of "1" fails. *)
Definition drive_sorted : drive :=
  {| listing := Some [f_new; f_old]; download_ok := fun i => negb (String.eqb i "1") |}.

End DriveObs.

(** Counting the events of a trace. *)
Module TraceObs.

Definition count_ev (p : event -> bool) (tr : list event) : nat := List.length (filter p tr).

Definition is_vision (e : event) : bool := match e with EVisionCall _ _ => true | _ => false end.
Definition is_extract (e : event) : bool := match e with EExtractCall _ => true | _ => false end.
Definition is_compose (e : event) : bool := match e with EComposeCall _ => true | _ => false end.
Definition is_subprocess (e : event) : bool := match e with ESubprocess _ => true | _ => false end.
Definition is_speech (e : event) : bool := match e with ESpeech _ => true | _ => false end.

(** The file paths of the vision requests of a trace, in order. *)
Definition vision_paths (tr : list event) : list string :=
  flat_map (fun e => match e with EVisionCall _ p => [p] | _ => [] end) tr.

End TraceObs.

(** The paths the entry point obtains from the download step. *)
Module MainObs.
Import Main.

Definition downloaded (E : main_env) : list string :=
  fst (Drive.download_recent_images (drive_env E) DRIVE_FOLDER_ID (num_images E)
         "/tmp/archaeological_agent_").

End MainObs.

(** Sample environments. *)
Module Samples.

Definition W_fail : world :=
  {| sips_ok := fun _ => false; pil_ok := fun _ => false; read_ok := fun _ => false;
     vision_reply := fun _ _ => None; extract_reply := None; compose_reply := None;
     error_message := "[Errno 2] No such file or directory" |}.

Definition W_demo : world :=
  {| sips_ok := fun _ => false; pil_ok := fun _ => true; read_ok := fun _ => true;
     vision_reply := fun i _ =>
       match i with
       | 1 => Some "A rusty SWORD lies beside a brass pot with its lid."
       | 3 => Some "Two coins: a modern penny and a dime."
       | _ => None
       end;
     extract_reply := None; compose_reply := None;
     error_message := "Connection error." |}.

(** The extraction model answers with the object-of-records shape whose one
    record sits under the key "artifacts", or with the bare array of that
    record. *)
Definition W_wrapped : world :=
  {| sips_ok := fun _ => false; pil_ok := fun _ => true; read_ok := fun _ => true;
     vision_reply := fun _ _ => None;
     extract_reply := Some (JObj [("artifacts", ParseObs.sword_record)]);
     compose_reply := None; error_message := "Connection error." |}.

Definition W_bare : world :=
  {| sips_ok := fun _ => false; pil_ok := fun _ => true; read_ok := fun _ => true;
     vision_reply := fun _ _ => None;
     extract_reply := Some (JArr [ParseObs.sword_record]);
     compose_reply := None; error_message := "Connection error." |}.

Definition E_demo : Main.main_env :=
  {| Main.num_images := 2; Main.auth_result := None; Main.drive_env := DriveObs.drive_tie;
     Main.api_key_set := true; Main.analyzer_world := W_demo;
     Main.gtts_available := true; Main.tts_ok := true; Main.presentation_result := None |}.

End Samples.

(* ================================================================== *)
(** * Properties *)

(** ** Writer monad *)

Lemma fst_bind {A B} (m : M A) (f : A -> M B) : fst (bind m f) = fst (f (fst m)).
Proof. destruct m as [a t]; simpl; destruct (f a); reflexivity. Qed.

Lemma snd_bind {A B} (m : M A) (f : A -> M B) :
  snd (bind m f) = app (snd m) (snd (f (fst m))).
Proof. destruct m as [a t]; simpl; destruct (f a); reflexivity. Qed.

Lemma bind_ret_l {A B} (a : A) (f : A -> M B) : bind (ret a) f = f a.
Proof. unfold bind, ret; simpl; destruct (f a); reflexivity. Qed.

(** ** The analysis pipeline *)

Module Pipeline.
Import PyStr Converter Analyzer PipelineObs.

Lemma no_model_call_app t1 t2 :
  no_model_call t1 -> no_model_call t2 -> no_model_call (app t1 t2).
Proof.
  unfold no_model_call; intros H1 H2; rewrite forallb_app, H1, H2; reflexivity.
Qed.

Lemma ensure_no_model_call W p : no_model_call (snd (ensure_jpg_format W p)).
Proof.
  unfold ensure_jpg_format, convert_to_jpg, no_model_call.
  destruct (is_jpg_name p); [reflexivity|].
  unfold bind, tell, ret; simpl.
  destruct (sips_ok W p), (pil_ok W p); reflexivity.
Qed.

Lemma analyze_image_no_model_call W i p : no_model_call (snd (analyze_image W i p)).
Proof.
  unfold analyze_image. rewrite snd_bind.
  apply no_model_call_app; [apply ensure_no_model_call|].
  set (j := fst (ensure_jpg_format W p)).
  unfold bind, tell, ret, no_model_call; simpl.
  destruct (read_ok W j); simpl; [|reflexivity].
  destruct (vision_reply W i j); reflexivity.
Qed.

Lemma analyze_loop_result W ps i :
  fst (analyze_loop W i ps) = (findings W i ps, map (normalized W) ps).
Proof.
  revert i; induction ps as [|p ps IH]; intro i; [reflexivity|].
  cbn [analyze_loop]. rewrite !fst_bind. rewrite IH.
  unfold findings; fold findings. unfold recognized, normalized, ret; simpl.
  destruct (success (fst (analyze_image W i (fst (ensure_jpg_format W p))))); reflexivity.
Qed.

Lemma analyze_loop_no_model_call W ps i : no_model_call (snd (analyze_loop W i ps)).
Proof.
  revert i; induction ps as [|p ps IH]; intro i; [reflexivity|].
  cbn [analyze_loop]. rewrite !snd_bind.
  apply no_model_call_app; [apply ensure_no_model_call|].
  apply no_model_call_app; [apply analyze_image_no_model_call|].
  apply no_model_call_app; [apply IH|reflexivity].
Qed.

Lemma findings_nil W ps i :
  (forall k p, nth_error ps k = Some p -> recognized W (i + k) p = None) ->
  findings W i ps = [].
Proof.
  revert i; induction ps as [|p ps IH]; intros i H; [reflexivity|].
  simpl. pose proof (H 0 p eq_refl) as H0. rewrite Nat.add_0_r in H0. rewrite H0.
  apply IH. intros k q Hq. replace (S i + k) with (i + S k) by lia.
  apply (H (S k)); exact Hq.
Qed.

Lemma findings_length W ps i : List.length (findings W i ps) <= List.length ps.
Proof.
  revert i; induction ps as [|p ps IH]; intro i; simpl; [lia|].
  destruct (recognized W i p); simpl; specialize (IH (S i)); lia.
Qed.

Lemma analyze_multiple_images_paths W image_paths :
  snd (fst (fst (analyze_multiple_images W image_paths)))
  = map (normalized W) image_paths.
Proof.
  unfold analyze_multiple_images. rewrite fst_bind, analyze_loop_result. simpl.
  destruct (findings W 1 image_paths); [reflexivity|].
  rewrite !fst_bind. destruct (compose_reply W); reflexivity.
Qed.

(** C2. If the recognition of every input image fails, no finding is
    collected and [analyze_multiple_images] returns the sentinel narration
    "Unable to analyze any images.", an empty artifact list and the
    normalized path of every input, without any extraction or narration
    request. *)
Theorem all_recognitions_fail_sentinel (W : world) (image_paths : list string)
  (Hfail : forall k p, nth_error image_paths k = Some p -> recognized W (1 + k) p = None) :
  fst (analyze_multiple_images W image_paths)
    = ("Unable to analyze any images.", map (normalized W) image_paths, JArr [])
  /\ no_model_call (snd (analyze_multiple_images W image_paths)).
Proof.
  unfold analyze_multiple_images. rewrite fst_bind, snd_bind, !analyze_loop_result.
  rewrite (findings_nil W image_paths 1 Hfail). simpl. split; [reflexivity|].
  rewrite app_nil_r. apply analyze_loop_no_model_call.
Qed.

(** C3. The normalized-path sequence returned by [analyze_multiple_images]
    has the length of the input and holds, at position [k], the normalized
    path of the [k]-th input, whatever the recognition outcomes. *)
Theorem normalized_paths_preserved (W : world) (image_paths : list string) :
  let jpg_image_paths := snd (fst (fst (analyze_multiple_images W image_paths))) in
  List.length jpg_image_paths = List.length image_paths /\
  forall k p, nth_error image_paths k = Some p ->
              nth_error jpg_image_paths k = Some (normalized W p).
Proof.
  simpl. rewrite analyze_multiple_images_paths. split.
  - apply length_map.
  - intros k p Hk. rewrite nth_error_map, Hk. reflexivity.
Qed.

(** C10. The loop of [analyze_multiple_images] collects, in input order,
    exactly one finding for each input whose recognition succeeds and none
    for the others, so there are at most as many findings as inputs, while
    the normalized path of every input is carried forward. *)
Theorem findings_at_most_inputs (W : world) (image_paths : list string) :
  let '(all_analyses, jpg_image_paths) := fst (analyze_loop W 1 image_paths) in
  List.length all_analyses <= List.length image_paths /\
  all_analyses = findings W 1 image_paths /\
  jpg_image_paths = map (normalized W) image_paths.
Proof.
  rewrite analyze_loop_result. split; [apply findings_length|]. split; reflexivity.
Qed.

(** C6. When the narration request fails (and at least one finding was
    collected, so that it is issued), the narration returned is the
    findings, in input order, joined by the two-character separator "\n\n";
    the request was issued and the fallback is a plain string. *)
Theorem compose_failure_joins_findings (W : world) (image_paths : list string)
  (Hfail : compose_reply W = None)
  (Hsome : findings W 1 image_paths <> []) :
  fst (fst (fst (analyze_multiple_images W image_paths)))
    = join (nl ++ nl) (findings W 1 image_paths)
  /\ String.length (nl ++ nl) = 2
  /\ In (EComposeCall (findings W 1 image_paths))
        (snd (analyze_multiple_images W image_paths)).
Proof.
  unfold analyze_multiple_images. rewrite fst_bind, snd_bind, !analyze_loop_result.
  simpl. destruct (findings W 1 image_paths) as [|a rest] eqn:Hf;
    [contradiction|].
  rewrite !fst_bind, !snd_bind, Hfail. simpl.
  split; [reflexivity|]. split; [reflexivity|].
  apply in_or_app; right. apply in_or_app; right. simpl. left; reflexivity.
Qed.

End Pipeline.

(** ** String facts *)

Module StrFacts.

Lemma length_append (a b : string) : String.length (a ++ b) = String.length a + String.length b.
Proof. induction a as [|c a IH]; simpl; [reflexivity|rewrite IH; reflexivity]. Qed.

Lemma substring0_length (n : nat) (s : string) :
  n <= String.length s -> String.length (substring 0 n s) = n.
Proof.
  revert s; induction n as [|n IH]; intros s H; [destruct s; reflexivity|].
  destruct s as [|c s]; simpl in *; [lia|].
  rewrite IH by lia. reflexivity.
Qed.

Lemma substring0_prefix (n : nat) (s : string) : prefix (substring 0 n s) s = true.
Proof.
  revert s; induction n as [|n IH]; intros s; [destruct s; reflexivity|].
  destruct s as [|c s]; simpl; [reflexivity|].
  destruct (ascii_dec c c) as [_|Hn]; [apply IH|contradiction].
Qed.

End StrFacts.

(** ** Keyword fallback of [extract_artifacts] *)

Module ExtractFacts.
Import PyStr Analyzer ParseObs.

Ltac destruct_ifs :=
  repeat match goal with |- context [if ?b then _ else _] => destruct b end.

(** C5. When the structured-extraction call fails, the keyword scan run on
    a single finding whose lowercased text contains "sword" returns a list
    with exactly one record named "Sword". *)
Theorem fallback_single_sword (W : world) (analysis_text : string)
  (Hfail : extract_reply W = None)
  (Hsword : contains "sword" (lower analysis_text) = true) :
  exists artifacts,
    fst (extract_artifacts W [analysis_text]) = JArr artifacts /\
    List.length (filter (name_is "Sword") artifacts) = 1.
Proof.
  unfold extract_artifacts. rewrite fst_bind. simpl. rewrite Hfail.
  eexists; split; [reflexivity|].
  unfold extract_fallback, keyword_records. simpl. rewrite app_nil_r.
  rewrite Hsword. destruct_ifs; reflexivity.
Qed.

End ExtractFacts.

(** ** Format normalizer *)

Module ConverterFacts.
Import Converter.

(** C7. For a path whose lowercased form ends in ".jpg" or ".jpeg",
    [ensure_jpg_format] returns the identical string and produces no event:
    no subprocess, no image read or write. *)
Theorem jpg_path_unchanged_no_io (W : world) (image_path : string)
  (H : is_jpg_name image_path = true) :
  ensure_jpg_format W image_path = (image_path, []).
Proof. unfold ensure_jpg_format; rewrite H; reflexivity. Qed.

(** For any other path a conversion is attempted: the first event is the
    [sips] subprocess. *)
Lemma non_jpg_path_converts (W : world) (image_path : string) :
  is_jpg_name image_path = false ->
  exists argv rest, snd (ensure_jpg_format W image_path) = ESubprocess argv :: rest.
Proof.
  intro H. unfold ensure_jpg_format, convert_to_jpg. rewrite H.
  unfold bind, tell, ret; simpl.
  destruct (sips_ok W image_path), (pil_ok W image_path); simpl; eauto.
Qed.

End ConverterFacts.

(** ** Speech synthesis *)

Module AudioFacts.
Import PyStr Audio StrFacts.

(** C8. When gTTS is available, [text_to_speech] hands the engine
    [speech_text text]: for a text longer than 5000 characters its first
    5000 characters followed by "..." (length 5003), otherwise the text
    itself. *)
Theorem speech_text_truncation (tts_ok : bool) (text output_path : string) :
  let handed := speech_text text in
  snd (text_to_speech true tts_ok text output_path)
    = ESpeech handed :: (if tts_ok then [EAudioSave output_path] else []) /\
  (5000 < String.length text ->
     handed = substring 0 5000 text ++ "..." /\
     prefix (substring 0 5000 text) text = true /\
     String.length handed = 5003) /\
  (String.length text <= 5000 -> handed = text).
Proof.
  simpl. split; [|split].
  - unfold text_to_speech, bind, tell, ret; simpl. destruct tts_ok; reflexivity.
  - intro Hlt. unfold speech_text, slice_to.
    replace (5000 <? String.length text) with true by (symmetry; apply Nat.ltb_lt; exact Hlt).
    split; [reflexivity|]. split; [apply substring0_prefix|].
    rewrite length_append, substring0_length by lia. reflexivity.
  - intro Hle. unfold speech_text.
    replace (5000 <? String.length text) with false by (symmetry; apply Nat.ltb_ge; exact Hle).
    reflexivity.
Qed.

End AudioFacts.

(** ** Parsing of the extraction reply *)

Module ParseFacts.
Import Analyzer ParseObs.

(** C4 (counterexample). An object-of-records reply whose single record
    sits under the key "artifacts" takes the wrapper branch: [extract_artifacts]
    returns that record itself, a dict, where the bare array holding the
    same record gives the one-element list. *)
Lemma artifacts_key_record_returned_as_dict :
  fst (extract_artifacts Samples.W_wrapped ["A sword."]) = sword_record /\
  (exists fields, sword_record = JObj fields) /\
  fst (extract_artifacts Samples.W_bare ["A sword."]) = JArr [sword_record] /\
  fst (extract_artifacts Samples.W_wrapped ["A sword."])
    <> fst (extract_artifacts Samples.W_bare ["A sword."]).
Proof.
  vm_compute. split; [reflexivity|]. split; [eexists; reflexivity|].
  split; [reflexivity|discriminate].
Qed.

Lemma dict_get_absent (k : string) (kv : list (string * json)) :
  (forall k' v, In (k', v) kv -> k' <> k) -> dict_get k kv = None.
Proof.
  induction kv as [|[k' v] kv IH]; intro H; [reflexivity|].
  simpl. destruct (String.eqb_spec k k') as [E|_].
  - exfalso. apply (H k' v); [left; reflexivity|symmetry; exact E].
  - apply IH. intros k'' v' Hin. apply (H k'' v'); right; exact Hin.
Qed.

Lemma flatten_groups (kv : list (string * json)) :
  (forall k v, In (k, v) kv -> has_name v = true \/ exists l', v = JArr l') ->
  flat_map (fun kv1 => flatten_value (snd kv1)) kv
  = flat_map (fun kv1 => record_group (snd kv1)) kv.
Proof.
  induction kv as [|[k v] kv IH]; intro H; [reflexivity|].
  simpl. rewrite IH by (intros k' v' Hin; apply (H k' v'); right; exact Hin).
  f_equal. destruct (H k v (or_introl eq_refl)) as [Hn|[l' ->]]; [|reflexivity].
  destruct v; try discriminate. simpl in *. rewrite Hn. reflexivity.
Qed.

(** C4 (where the code agrees). A bare array is returned as it is, the
    wrapper {"artifacts": l} yields l, and an object-of-records with no key
    "artifacts" is flattened in key order, keeping dict values that carry a
    "name" key and splicing array values.  Hence for records that carry a
    "name" key, these three shapes parse to the same list l. *)
Theorem parse_shapes_agree (l : list json) (kv : list (string * json))
  (Hkeys : forall k v, In (k, v) kv -> k <> "artifacts")
  (Hvals : forall k v, In (k, v) kv -> has_name v = true \/ exists l', v = JArr l')
  (Hflat : flat_map (fun kv1 => record_group (snd kv1)) kv = l) :
  parse_extraction (JArr l) = JArr l /\
  parse_extraction (JObj [("artifacts", JArr l)]) = JArr l /\
  parse_extraction (JObj kv) = JArr l.
Proof.
  split; [reflexivity|]. split; [reflexivity|].
  simpl. rewrite dict_get_absent by exact Hkeys.
  rewrite flatten_groups by exact Hvals. rewrite Hflat. reflexivity.
Qed.

End ParseFacts.

(** ** The command-line entry point *)

Module MainFacts.
Import Main.

Lemma not_in_lift (m : main_event) (t : list event) :
  (forall e, m <> MIo e) -> ~ In m (lift t).
Proof.
  intros H Hin. unfold lift in Hin. apply in_map_iff in Hin.
  destruct Hin as [e [He _]]. apply (H e); symmetry; exact He.
Qed.

(** C1. Whenever the run gets past the download (at least one image) and
    the analyzer is built, [analyze_multiple_images] returns a 3-tuple, so
    unpacking it into two names raises [ValueError]; [main]'s
    [except Exception] handler catches it, the audio and presentation steps
    are never reached, and the process exits with code 0. *)
Theorem main_unpack_value_error (E : main_env)
  (Hnum : (1 <= num_images E)%Z)
  (Hauth : auth_result E = None)
  (Hdl : fst (Drive.download_recent_images (drive_env E) DRIVE_FOLDER_ID (num_images E)
                "/tmp/archaeological_agent_") <> [])
  (Hkey : api_key_set E = true) :
  (forall r, unpack2 (py_of_analysis r) = inl ValueError) /\
  exists tr, run_main E = (0%Z, tr) /\ In (MHandled ValueError) tr /\
    ~ In MAudioStep tr /\ ~ In MPresentationStep tr /\ ~ In MOpenBrowser tr.
Proof.
  split.
  { intros [[n j] a]. reflexivity. }
  unfold run_main.
  replace (num_images E <? 1)%Z with false by (symmetry; apply Z.ltb_ge; lia).
  unfold main_try. rewrite Hauth.
  destruct (Drive.download_recent_images (drive_env E) DRIVE_FOLDER_ID (num_images E)
              "/tmp/archaeological_agent_") as [paths t1] eqn:Hd.
  simpl in Hdl. destruct paths as [|p ps]; [contradiction|].
  rewrite Hkey. simpl.
  destruct (Analyzer.analyze_multiple_images (analyzer_world E) (p :: ps))
    as [[[n j] a] t2].
  simpl. eexists; split; [reflexivity|].
  assert (Hnot : forall m, (forall e, m <> MIo e) -> m <> MAnalyzeStep ->
            m <> MHandled ValueError -> m <> MCleanup ->
            ~ In m ((lift t1 ++ MAnalyzeStep :: lift t2) ++ [MHandled ValueError; MCleanup])%list).
  { intros m Hm H1 H2 H3 Hin. rewrite !in_app_iff in Hin. simpl in Hin.
    destruct Hin as [[Hin|[Hin|Hin]]|[Hin|[Hin|[]]]];
      try (apply (not_in_lift m _ Hm Hin)); congruence. }
  split; [apply in_app_iff; right; left; reflexivity|].
  split; [|split]; apply Hnot; discriminate.
Qed.

End MainFacts.

(** ** Selection of the Drive images *)

Module SortedFacts.
Section Generic.
Context {A : Type} (R : A -> A -> Prop).

Lemma SS_filter (p : A -> bool) (l : list A) :
  StronglySorted R l -> StronglySorted R (filter p l).
Proof.
  induction l as [|a l IH]; intro H; [constructor|].
  inversion H as [|? ? Hl Ha]; subst. simpl. destruct (p a); [|apply IH; exact Hl].
  constructor; [apply IH; exact Hl|].
  apply Forall_forall. intros x Hx. apply filter_In in Hx.
  rewrite Forall_forall in Ha. apply Ha, Hx.
Qed.

Lemma in_firstn (n : nat) (l : list A) (x : A) : In x (firstn n l) -> In x l.
Proof. intro H. rewrite <- (firstn_skipn n l). apply in_or_app; left; exact H. Qed.

Lemma SS_firstn (n : nat) (l : list A) :
  StronglySorted R l -> StronglySorted R (firstn n l).
Proof.
  revert l; induction n as [|n IH]; intros l H; [constructor|].
  destruct l as [|a l]; [constructor|].
  inversion H as [|? ? Hl Ha]; subst. simpl. constructor; [apply IH; exact Hl|].
  apply Forall_forall. intros x Hx. rewrite Forall_forall in Ha.
  apply Ha. exact (in_firstn n l x Hx).
Qed.

Lemma SS_impl (R' : A -> A -> Prop) (l : list A) :
  (forall a b, R a b -> R' a b) -> StronglySorted R l -> StronglySorted R' l.
Proof.
  intros HR; induction l as [|a l IH]; intro H; [constructor|].
  inversion H as [|? ? Hl Ha]; subst. constructor; [apply IH; exact Hl|].
  eapply Forall_impl; [|exact Ha]. intros b; apply HR.
Qed.

Lemma SS_app_before (acc l : list A) (x : A) :
  StronglySorted R (acc ++ x :: l) -> Forall (fun y => R y x) acc.
Proof.
  induction acc as [|a acc IH]; intro H; [constructor|].
  inversion H as [|? ? Hl Ha]; subst. constructor.
  - rewrite Forall_forall in Ha. apply Ha. apply in_or_app; right; left; reflexivity.
  - apply IH; exact Hl.
Qed.

End Generic.
End SortedFacts.

Module DriveFacts.
Import PyStr Drive SortedFacts DriveObs.

(** Python's [<=] on [str] is transitive and total. *)
Lemma compare_le_trans (a b c : string) :
  String.compare a b <> Gt -> String.compare b c <> Gt -> String.compare a c <> Gt.
Proof.
  revert b c; induction a as [|x a IH]; intros b c H1 H2.
  - destruct c; simpl; discriminate.
  - destruct b as [|y b]; [simpl in H1; congruence|].
    destruct c as [|z c]; [simpl in H2; congruence|].
    simpl in *. unfold Ascii.compare in *.
    destruct (N.compare_spec (N_of_ascii x) (N_of_ascii y)) as [Exy|Lxy|Gxy];
    destruct (N.compare_spec (N_of_ascii y) (N_of_ascii z)) as [Eyz|Lyz|Gyz];
    try congruence;
    [ replace (N_of_ascii x ?= N_of_ascii z)%N with Eq
        by (symmetry; apply N.compare_eq_iff; lia); apply (IH b c); assumption
    | replace (N_of_ascii x ?= N_of_ascii z)%N with Lt
        by (symmetry; apply N.compare_lt_iff; lia); discriminate .. ].
Qed.

Lemma leb_true (a b : string) : String.leb a b = true <-> String.compare a b <> Gt.
Proof. unfold String.leb. destruct (String.compare a b); split; congruence. Qed.

Lemma leb_trans (a b c : string) :
  String.leb a b = true -> String.leb b c = true -> String.leb a c = true.
Proof. rewrite !leb_true. apply compare_le_trans. Qed.

Lemma leb_flip (a b : string) : String.leb a b = false -> String.leb b a = true.
Proof. intro H. destruct (String.leb_total a b) as [E|E]; congruence. Qed.

Lemma in_ins (x z : drive_file) (s : list drive_file) :
  In z (ins_desc x s) -> z = x \/ In z s.
Proof.
  induction s as [|y s IH]; simpl; [intuition|].
  destruct (String.leb (get_timestamp x) (get_timestamp y)); simpl; intuition.
Qed.

Lemma ins_sorted (x : drive_file) (s : list drive_file) :
  StronglySorted key_ge s -> StronglySorted key_ge (ins_desc x s).
Proof.
  induction s as [|y s IH]; intro H; simpl; [repeat constructor|].
  inversion H as [|? ? Hs Hy]; subst.
  destruct (String.leb (get_timestamp x) (get_timestamp y)) eqn:Hxy.
  - constructor; [apply IH; exact Hs|].
    apply Forall_forall. intros z Hz. destruct (in_ins x z s Hz) as [->|Hin].
    + exact Hxy.
    + rewrite Forall_forall in Hy. apply Hy, Hin.
  - constructor; [exact H|]. constructor; [apply leb_flip; exact Hxy|].
    apply Forall_forall. intros z Hz. rewrite Forall_forall in Hy.
    unfold key_ge. apply leb_trans with (get_timestamp y); [apply Hy, Hz|].
    apply leb_flip; exact Hxy.
Qed.

Lemma filter_none {A} (p : A -> bool) (l : list A) :
  (forall z, In z l -> p z = false) -> filter p l = [].
Proof.
  induction l as [|a l IH]; intro H; [reflexivity|]. simpl.
  rewrite H by (left; reflexivity). apply IH. intros z Hz; apply H; right; exact Hz.
Qed.

Lemma ins_filter (k : string) (x : drive_file) (s : list drive_file) :
  StronglySorted key_ge s ->
  filter (key_eqb k) (ins_desc x s) = (filter (key_eqb k) s ++ filter (key_eqb k) [x])%list.
Proof.
  induction s as [|y s IH]; intro H; [reflexivity|].
  inversion H as [|? ? Hs Hy]; subst. simpl.
  destruct (String.leb (get_timestamp x) (get_timestamp y)) eqn:Hxy.
  - simpl. rewrite IH by exact Hs. destruct (key_eqb k y); reflexivity.
  - simpl. destruct (key_eqb k x) eqn:Hx.
    + (* every element of [y :: s] has a key below [x]'s, hence not [k] *)
      assert (Hnone : forall z, In z (y :: s) -> key_eqb k z = false).
      { intros z Hz. unfold key_eqb in *. apply String.eqb_eq in Hx.
        destruct (String.eqb_spec (get_timestamp z) k) as [Ez|_]; [|reflexivity].
        exfalso. assert (Hzy : String.leb (get_timestamp z) (get_timestamp y) = true).
        { destruct Hz as [<-|Hz].
          - destruct (String.leb_total (get_timestamp y) (get_timestamp y)); assumption.
          - rewrite Forall_forall in Hy. apply Hy, Hz. }
        rewrite Ez, <- Hx, Hxy in Hzy. discriminate. }
      assert (Hnil : filter (key_eqb k) (y :: s) = []).
      { apply filter_none. exact Hnone. }
      simpl in Hnil. rewrite Hnil. reflexivity.
    + rewrite app_nil_r. reflexivity.
Qed.

Lemma ins_end (x : drive_file) (s : list drive_file) :
  Forall (fun y => key_ge y x) s -> ins_desc x s = (s ++ [x])%list.
Proof.
  induction s as [|y s IH]; intro H; [reflexivity|].
  inversion H as [|? ? Hy Hs]; subst. simpl. unfold key_ge in Hy. rewrite Hy.
  rewrite IH by exact Hs. reflexivity.
Qed.

Lemma fold_ins_in (l acc : list drive_file) (z : drive_file) :
  In z (fold_left step l acc) -> In z acc \/ In z l.
Proof.
  revert acc; induction l as [|a l IH]; intros acc H; simpl in *; [left; exact H|].
  destruct (IH _ H) as [Hz|Hz]; [|right; right; exact Hz].
  destruct (in_ins a z acc Hz) as [->|Hz']; [right; left; reflexivity|left; exact Hz'].
Qed.

Lemma fold_ins_sorted (l acc : list drive_file) :
  StronglySorted key_ge acc -> StronglySorted key_ge (fold_left step l acc).
Proof.
  revert acc; induction l as [|a l IH]; intros acc H; simpl; [exact H|].
  apply IH, ins_sorted, H.
Qed.

Lemma fold_ins_filter (k : string) (l acc : list drive_file) :
  StronglySorted key_ge acc ->
  filter (key_eqb k) (fold_left step l acc) = (filter (key_eqb k) acc ++ filter (key_eqb k) l)%list.
Proof.
  revert acc; induction l as [|a l IH]; intros acc H; simpl; [rewrite app_nil_r; reflexivity|].
  rewrite IH by (apply ins_sorted, H). unfold step. rewrite ins_filter by exact H.
  rewrite <- app_assoc. f_equal. simpl. destruct (key_eqb k a); reflexivity.
Qed.

Lemma fold_ins_id (l acc : list drive_file) :
  StronglySorted key_ge (acc ++ l) -> fold_left step l acc = (acc ++ l)%list.
Proof.
  revert acc; induction l as [|a l IH]; intros acc H; simpl; [rewrite app_nil_r; reflexivity|].
  unfold step at 2. rewrite ins_end by (apply (SS_app_before key_ge acc l a), H).
  rewrite IH; [rewrite <- app_assoc; reflexivity|]. rewrite <- app_assoc. exact H.
Qed.

Lemma sort_desc_fold (l : list drive_file) : sort_desc l = fold_left step l [].
Proof. reflexivity. Qed.

Lemma download_all_result (D : drive) (dir : string) (fs : list drive_file) :
  fst (download_all D dir fs)
  = map (fun f => Converter.path_join dir (name f))
        (filter (fun f => download_ok D (file_id f)) fs).
Proof.
  induction fs as [|f fs IH]; [reflexivity|].
  cbn [download_all]. rewrite !fst_bind, IH. unfold download_file. rewrite fst_bind.
  simpl. destruct (download_ok D (file_id f)); reflexivity.
Qed.

Lemma download_recent_images_result D folder_id num_images output_dir :
  fst (download_recent_images D folder_id num_images output_dir)
  = map (fun f => Converter.path_join output_dir (name f))
        (downloaded_files D (listed D) num_images).
Proof.
  unfold download_recent_images. rewrite fst_bind, download_all_result.
  unfold list_files_in_folder, listed. rewrite fst_bind. simpl.
  destruct (listing D); reflexivity.
Qed.

(** C9. Assume Drive returns the listing in the order
    [list_files_in_folder] requests, newest first by the timestamp key and
    then by created time. For [num_images >= 0] (main passes at least 1),
    [download_recent_images] returns at most [num_images] paths. They are
    the paths of the successfully downloaded files among the first
    [num_images] listed images (image by extension or MIME prefix). They
    come most recent first, ties broken by the newest created time, where
    a file without modifiedTime is keyed by its createdTime. *)
Theorem download_recent_images_order (D : drive) (folder_id : string) (num_images : Z)
  (output_dir : string) (Hnum : (0 <= num_images)%Z)
  (Hlisting : StronglySorted lex_ge (listed D)) :
  let images := filter is_image (listed D) in
  let chosen := downloaded_files D (listed D) num_images in
  fst (download_recent_images D folder_id num_images output_dir)
    = map (fun f => Converter.path_join output_dir (name f)) chosen /\
  chosen = filter (fun f => download_ok D (file_id f)) (firstn (Z.to_nat num_images) images) /\
  List.length chosen <= Z.to_nat num_images /\
  (forall f, In f chosen -> In f (listed D) /\ is_image f = true) /\
  StronglySorted lex_ge chosen.
Proof.
  intros images chosen.
  assert (Himg : StronglySorted lex_ge images) by (apply SS_filter; exact Hlisting).
  assert (Hid : sort_desc images = images).
  { rewrite sort_desc_fold. apply (fold_ins_id images []). simpl.
    apply (SS_impl lex_ge); [intros a b [H _]; exact H|exact Himg]. }
  assert (Hch : chosen = filter (fun f => download_ok D (file_id f))
                          (firstn (Z.to_nat num_images) images)).
  { unfold chosen, downloaded_files, selected_files, py_slice_to.
    apply Z.leb_le in Hnum. rewrite Hnum. fold images. rewrite Hid. reflexivity. }
  split; [apply download_recent_images_result|].
  split; [exact Hch|].
  rewrite Hch. split.
  { eapply Nat.le_trans; [apply filter_length_le|apply firstn_le_length]. }
  split.
  { intros f Hf. apply filter_In in Hf as [Hf _]. apply in_firstn in Hf.
    apply filter_In in Hf. exact Hf. }
  apply SS_filter, SS_firstn. exact Himg.
Qed.

End DriveFacts.

(** ** Instances of the properties at concrete inputs *)

Module Witnesses.
Import PyStr Converter Analyzer PipelineObs ParseObs DriveObs Samples.

Lemma all_recognitions_fail_sentinel_witness :
  fst (analyze_multiple_images W_fail ["drone/IMG_1.HEIC"; "drone/IMG_2.jpg"])
  = ("Unable to analyze any images.",
     map (normalized W_fail) ["drone/IMG_1.HEIC"; "drone/IMG_2.jpg"], JArr []).
Proof.
  refine (proj1 (Pipeline.all_recognitions_fail_sentinel W_fail
                   ["drone/IMG_1.HEIC"; "drone/IMG_2.jpg"] _)).
  intros k p Hk. destruct k as [|[|k]]; simpl in Hk;
    [injection Hk as <- | injection Hk as <- | destruct k; discriminate];
    vm_compute; reflexivity.
Defined.

Lemma compose_failure_joins_findings_witness :
  fst (fst (fst (analyze_multiple_images W_demo ["a.jpg"; "b.png"; "c.JPEG"])))
  = join (nl ++ nl) (findings W_demo 1 ["a.jpg"; "b.png"; "c.JPEG"]).
Proof.
  refine (proj1 (Pipeline.compose_failure_joins_findings W_demo
                   ["a.jpg"; "b.png"; "c.JPEG"] eq_refl _)).
  vm_compute. discriminate.
Defined.

Lemma fallback_single_sword_witness :
  exists artifacts,
    fst (extract_artifacts W_demo ["A rusty SWORD lies beside a brass pot with its lid."])
      = JArr artifacts /\
    List.length (filter (name_is "Sword") artifacts) = 1.
Proof.
  apply (ExtractFacts.fallback_single_sword W_demo _ eq_refl).
  vm_compute. reflexivity.
Defined.

Lemma jpg_path_unchanged_no_io_witness :
  ensure_jpg_format W_demo "DCIM/Photo.JPG" = ("DCIM/Photo.JPG", []).
Proof.
  apply ConverterFacts.jpg_path_unchanged_no_io. vm_compute. reflexivity.
Defined.

Lemma parse_shapes_agree_witness :
  parse_extraction (JObj [("coin", record "Coin" "Modern (2024)" "United States" "penny");
                          ("more", JArr [sword_record])])
  = JArr [record "Coin" "Modern (2024)" "United States" "penny"; sword_record].
Proof.
  refine (proj2 (proj2 (ParseFacts.parse_shapes_agree
            [record "Coin" "Modern (2024)" "United States" "penny"; sword_record]
            [("coin", record "Coin" "Modern (2024)" "United States" "penny");
             ("more", JArr [sword_record])] _ _ _))).
  - intros k v H. simpl in H.
    destruct H as [H|[H|[]]]; injection H as <- <-; discriminate.
  - intros k v H. simpl in H.
    destruct H as [H|[H|[]]]; injection H as <- <-;
      [left; reflexivity | right; eexists; reflexivity].
  - reflexivity.
Defined.

Lemma download_recent_images_order_witness :
  fst (Drive.download_recent_images drive_sorted "folder" 2 "/tmp/d")
  = map (fun f => path_join "/tmp/d" (Drive.name f))
        (downloaded_files drive_sorted (listed drive_sorted) 2).
Proof.
  refine (proj1 (DriveFacts.download_recent_images_order drive_sorted "folder" 2 "/tmp/d" _ _)).
  - vm_compute. discriminate.
  - vm_compute. repeat constructor; vm_compute; reflexivity.
Defined.

Lemma main_unpack_value_error_witness :
  exists tr, Main.run_main E_demo = (0%Z, tr) /\ In (Main.MHandled Main.ValueError) tr /\
    ~ In Main.MAudioStep tr /\ ~ In Main.MPresentationStep tr /\ ~ In Main.MOpenBrowser tr.
Proof.
  refine (proj2 (MainFacts.main_unpack_value_error E_demo _ eq_refl _ eq_refl)).
  - vm_compute. discriminate.
  - vm_compute. discriminate.
Defined.

End Witnesses.

(* ================================================================== *)
(** * Further properties of the code *)

Module MoreStr.
Import PyStr.

Lemma append_assoc (a b c : string) : ((a ++ b) ++ c) = (a ++ (b ++ c)).
Proof. induction a as [|x a IH]; simpl; [reflexivity|rewrite IH; reflexivity]. Qed.

Lemma substring_app (y z : string) (k m : nat) :
  substring (String.length y + k) m (y ++ z) = substring k m z.
Proof. induction y as [|c y IH]; simpl; [reflexivity|exact IH]. Qed.

Lemma substring_whole (z : string) : substring 0 (String.length z) z = z.
Proof. induction z as [|c z IH]; simpl; [reflexivity|rewrite IH; reflexivity]. Qed.

Lemma endswith_app (y suf : string) : endswith suf (y ++ suf) = true.
Proof.
  unfold endswith. rewrite StrFacts.length_append.
  replace (String.length y + String.length suf - String.length suf)
    with (String.length y + 0) by lia.
  rewrite substring_app, substring_whole, String.eqb_refl.
  rewrite andb_true_r. apply Nat.leb_le. lia.
Qed.

Lemma lower_app (a b : string) : lower (a ++ b) = (lower a ++ lower b).
Proof. induction a as [|c a IH]; simpl; [reflexivity|rewrite IH; reflexivity]. Qed.

Lemma lower_length (a : string) : String.length (lower a) = String.length a.
Proof. induction a as [|c a IH]; simpl; [reflexivity|rewrite IH; reflexivity]. Qed.

End MoreStr.

Module ConverterMore.
Import PyStr Converter MoreStr TraceObs.

Lemma path_join_ends (a b : string) : exists x, path_join a b = (x ++ b).
Proof.
  unfold path_join.
  destruct (startswith "/" b); [exists ""; reflexivity|].
  destruct (String.eqb a "" || endswith "/" a); [exists a; reflexivity|].
  exists (a ++ "/"). rewrite append_assoc. reflexivity.
Qed.

Lemma jpg_sibling_is_jpg (p : string) :
  is_jpg_name (path_join (dirname p) (stem p ++ ".jpg")) = true.
Proof.
  destruct (path_join_ends (dirname p) (stem p ++ ".jpg")) as [x ->].
  unfold is_jpg_name. rewrite <- append_assoc, lower_app. simpl lower.
  rewrite endswith_app. reflexivity.
Qed.

Lemma count_app (q : event -> bool) (t1 t2 : list event) :
  count_ev q (app t1 t2) = count_ev q t1 + count_ev q t2.
Proof. unfold count_ev. rewrite filter_app, length_app. reflexivity. Qed.

(** Normalizing a normalized path again (as [analyze_image] does on the
    path [analyze_multiple_images] hands it) is a no-op without any I/O
    when the first call kept a ".jpg"/".jpeg" path or converted; when both
    converters failed the second call repeats the whole conversion attempt. *)
Theorem ensure_jpg_format_renormalize (W : world) (p : string) :
  let q := fst (ensure_jpg_format W p) in
  (is_jpg_name p = true \/ sips_ok W p = true \/ pil_ok W p = true ->
     ensure_jpg_format W q = (q, [])) /\
  (is_jpg_name p = false -> sips_ok W p = false -> pil_ok W p = false ->
     q = p /\ ensure_jpg_format W q = ensure_jpg_format W p /\
     count_ev is_subprocess (snd (ensure_jpg_format W q)) = 1).
Proof.
  pose proof (jpg_sibling_is_jpg p) as Hj.
  unfold ensure_jpg_format, convert_to_jpg, bind, tell, ret.
  destruct (is_jpg_name p) eqn:Hp; simpl.
  - rewrite Hp. split; [reflexivity|intro H; discriminate].
  - destruct (sips_ok W p) eqn:Hs, (pil_ok W p) eqn:Hpi; simpl; rewrite ?Hj, ?Hp, ?Hs, ?Hpi;
      (split; [intros [H|[H|H]]; try discriminate; reflexivity
              | intros _ H1 H2; try discriminate]).
    simpl. repeat split; reflexivity.
Qed.

End ConverterMore.

Module PipelineMore.
Import PyStr Converter Analyzer PipelineObs TraceObs ConverterMore.

Lemma no_model_counts tr :
  no_model_call tr -> count_ev is_extract tr = 0 /\ count_ev is_compose tr = 0.
Proof.
  unfold no_model_call, count_ev. induction tr as [|e tr IH]; simpl; [auto|].
  intro H. apply andb_prop in H as [He Ht].
  destruct e; simpl in *; try discriminate; apply IH; exact Ht.
Qed.

Lemma vision_paths_app t1 t2 : vision_paths (app t1 t2) = app (vision_paths t1) (vision_paths t2).
Proof. unfold vision_paths. apply flat_map_app. Qed.

Lemma count_vision_paths tr : count_ev is_vision tr = List.length (vision_paths tr).
Proof.
  unfold count_ev, vision_paths. induction tr as [|e tr IH]; [reflexivity|].
  destruct e; simpl; rewrite ?IH; reflexivity.
Qed.

Lemma ensure_no_vision_paths W p : vision_paths (snd (ensure_jpg_format W p)) = [].
Proof.
  unfold ensure_jpg_format, convert_to_jpg.
  destruct (is_jpg_name p); [reflexivity|].
  unfold bind, tell, ret; simpl.
  destruct (sips_ok W p), (pil_ok W p); reflexivity.
Qed.

Lemma analyze_image_vision_paths W i p :
  vision_paths (snd (analyze_image W i p))
  = if read_ok W (fst (ensure_jpg_format W p)) then [fst (ensure_jpg_format W p)] else [].
Proof.
  unfold analyze_image. rewrite snd_bind, vision_paths_app, ensure_no_vision_paths.
  set (j := fst (ensure_jpg_format W p)).
  unfold bind, tell, ret, vision_paths; simpl.
  destruct (read_ok W j); simpl; [|reflexivity].
  destruct (vision_reply W i j); reflexivity.
Qed.

Lemma analyze_loop_vision_paths W ps i :
  vision_paths (snd (analyze_loop W i ps))
  = map (fun p => normalized W (normalized W p))
        (filter (fun p => read_ok W (normalized W (normalized W p))) ps).
Proof.
  revert i; induction ps as [|p ps IH]; intro i; [reflexivity|].
  cbn [analyze_loop].
  rewrite !snd_bind, !vision_paths_app, ensure_no_vision_paths, analyze_image_vision_paths.
  rewrite IH. unfold normalized. simpl.
  destruct (read_ok _ _); simpl; rewrite ?app_nil_r; reflexivity.
Qed.

(** A run of [analyze_multiple_images] sends one vision request for each
    input image whose normalized file can be read, in input order, for the
    path [analyze_image] normalizes it to, and none for the other inputs:
    at most one per input, none retried. It sends exactly one extraction
    request and one narration request when at least one finding was
    collected, and none otherwise. *)
Theorem model_calls_per_run (W : world) (image_paths : list string) :
  let tr := snd (analyze_multiple_images W image_paths) in
  let calls := match findings W 1 image_paths with [] => 0 | _ => 1 end in
  let readable := filter (fun p => read_ok W (normalized W (normalized W p))) image_paths in
  vision_paths tr = map (fun p => normalized W (normalized W p)) readable /\
  count_ev is_vision tr = List.length readable /\
  count_ev is_extract tr = calls /\
  count_ev is_compose tr = calls.
Proof.
  cbv zeta.
  assert (Hv : vision_paths (snd (analyze_multiple_images W image_paths))
               = map (fun p => normalized W (normalized W p))
                     (filter (fun p => read_ok W (normalized W (normalized W p))) image_paths)).
  { unfold analyze_multiple_images. rewrite snd_bind, vision_paths_app,
      analyze_loop_vision_paths, Pipeline.analyze_loop_result. simpl.
    destruct (findings W 1 image_paths) as [|a rest]; simpl; [apply app_nil_r|].
    unfold extract_artifacts, bind, tell, ret.
    destruct (extract_reply W), (compose_reply W); simpl; apply app_nil_r. }
  split; [exact Hv|]. split; [rewrite count_vision_paths, Hv; apply length_map|].
  unfold analyze_multiple_images. rewrite snd_bind, !count_app.
  destruct (no_model_counts _ (Pipeline.analyze_loop_no_model_call W image_paths 1))
    as [He Hc].
  rewrite He, Hc. rewrite Pipeline.analyze_loop_result. simpl.
  destruct (findings W 1 image_paths) as [|a rest].
  - unfold count_ev; simpl; split; reflexivity.
  - unfold extract_artifacts, bind, tell, ret.
    destruct (extract_reply W), (compose_reply W); unfold count_ev; simpl; split; reflexivity.
Qed.

(** When at least one finding was collected, the artifacts returned by
    [analyze_multiple_images] are the parsed extraction reply, or, when the
    extraction request fails, the keyword fallback run on the findings. *)
Theorem artifacts_of_findings (W : world) (image_paths : list string)
  (Hsome : findings W 1 image_paths <> []) :
  snd (fst (analyze_multiple_images W image_paths))
  = match extract_reply W with
    | Some result => parse_extraction result
    | None => JArr (extract_fallback (findings W 1 image_paths))
    end.
Proof.
  unfold analyze_multiple_images. rewrite fst_bind, Pipeline.analyze_loop_result. simpl.
  destruct (findings W 1 image_paths) as [|a rest]; [contradiction|].
  unfold extract_artifacts, bind, tell, ret.
  destruct (extract_reply W), (compose_reply W); reflexivity.
Qed.

End PipelineMore.

Module FallbackMore.
Import PyStr Analyzer StrFacts.

Ltac destruct_ifs_in H :=
  repeat match type of H with context [if ?b then _ else _] => destruct b end.

Lemma keyword_records_length a : List.length (keyword_records a) <= 5.
Proof.
  unfold keyword_records. rewrite !length_app.
  ExtractFacts.destruct_ifs; simpl; lia.
Qed.

Lemma keyword_records_shape a r :
  In r (keyword_records a) ->
  exists n tp c, r = record n tp c (excerpt a) /\
                 In n ["Coin"; "Brass Pot"; "Sword"; "Bone"; "Stone Drawing"].
Proof.
  intro H. unfold keyword_records in H. destruct_ifs_in H; simpl in H;
    repeat destruct H as [H|H]; subst; try contradiction;
    eexists _, _, _; (split; [reflexivity|simpl; tauto]).
Qed.

(** [excerpt] (the [additional_info] of a fallback record) is the finding
    itself when it has at most 100 characters, and otherwise a 100-character
    prefix of it followed by "..."; it never exceeds 103 characters. *)
Theorem excerpt_shape (analysis_text : string) :
  String.length (excerpt analysis_text) <= 103 /\
  (String.length analysis_text <= 100 -> excerpt analysis_text = analysis_text) /\
  (100 < String.length analysis_text ->
     exists pre, prefix pre analysis_text = true /\ String.length pre = 100 /\
                 excerpt analysis_text = (pre ++ "...")).
Proof.
  unfold excerpt, slice_to.
  destruct (100 <? String.length analysis_text) eqn:H.
  - apply Nat.ltb_lt in H.
    rewrite length_append, substring0_length by lia. simpl.
    split; [lia|]. split; [lia|].
    intros _. exists (substring 0 100 analysis_text).
    split; [apply substring0_prefix|]. split; [apply substring0_length; lia|reflexivity].
  - apply Nat.ltb_ge in H. split; [lia|]. split; [reflexivity|lia].
Qed.

(** The keyword fallback of [extract_artifacts] is the concatenation, in
    finding order, of one group of records per finding. Each group holds at
    most five records, and each of its records is a four-field
    [name]/[time_period]/[country_of_origin]/[additional_info] object named
    after one of the five artifact kinds, whose [additional_info] is the
    excerpt of that finding. *)
Theorem fallback_records (all_analyses : list string) :
  exists groups : list (list json),
    extract_fallback all_analyses = List.concat groups /\
    Forall2 (fun a g =>
               List.length g <= 5 /\
               forall r, In r g -> exists n tp c, r = record n tp c (excerpt a) /\
                 In n ["Coin"; "Brass Pot"; "Sword"; "Bone"; "Stone Drawing"])
            all_analyses groups.
Proof.
  exists (map keyword_records all_analyses). split.
  - unfold extract_fallback. rewrite flat_map_concat_map. reflexivity.
  - induction all_analyses as [|a l IH]; simpl; constructor; [|exact IH].
    split; [apply keyword_records_length|]. intros r Hr. apply keyword_records_shape, Hr.
Qed.

(** A finding whose lowercased text contains none of the keywords "coin",
    "pot", "vessel", "sword", "bone", "drawing" and "carving" yields no
    fallback record; the fallback of findings that are all of this kind is
    empty. *)
Theorem fallback_no_keyword (all_analyses : list string)
  (Hnone : forall a k, In a all_analyses ->
           In k ["coin"; "pot"; "vessel"; "sword"; "bone"; "drawing"; "carving"] ->
           contains k (lower a) = false) :
  extract_fallback all_analyses = [].
Proof.
  unfold extract_fallback. induction all_analyses as [|a l IH]; [reflexivity|].
  simpl. rewrite IH by (intros b k Hb Hk; apply Hnone; simpl; auto).
  assert (Hk : forall k, In k ["coin"; "pot"; "vessel"; "sword"; "bone"; "drawing"; "carving"] ->
                         contains k (lower a) = false)
    by (intros k Hk; apply Hnone; simpl; auto).
  unfold keyword_records.
  rewrite (Hk "coin"), (Hk "pot"), (Hk "vessel"), (Hk "sword"), (Hk "bone"),
    (Hk "drawing"), (Hk "carving") by (simpl; tauto).
  reflexivity.
Qed.

End FallbackMore.

Module AudioMore.
Import PyStr Audio StrFacts TraceObs.

(** [text_to_speech] returns [True] exactly when gTTS is available and the
    engine and the save both succeed; the audio file is saved exactly in
    that case; the engine is called once when gTTS is available and never
    otherwise, and the text it receives never exceeds 5003 characters. *)
Theorem text_to_speech_outcome (gtts_available tts_ok : bool) (text output_path : string) :
  let '(ok, tr) := text_to_speech gtts_available tts_ok text output_path in
  ok = gtts_available && tts_ok /\
  (In (EAudioSave output_path) tr <-> ok = true) /\
  count_ev is_speech tr = (if gtts_available then 1 else 0) /\
  (forall t, In (ESpeech t) tr -> String.length t <= 5003).
Proof.
  assert (Hlen : String.length (speech_text text) <= 5003).
  { assert (Hc : 5000 + 3 <= 5003) by (apply Nat.leb_le; vm_compute; reflexivity).
    unfold speech_text, slice_to. cbv zeta.
    destruct (5000 <? String.length text) eqn:H.
    - apply Nat.ltb_lt in H. rewrite length_append, substring0_length by lia.
      exact Hc.
    - apply Nat.ltb_ge in H. lia. }
  unfold text_to_speech, bind, tell, ret.
  destruct gtts_available, tts_ok; simpl;
    repeat split; intuition (try congruence; try discriminate);
    match goal with H : ESpeech _ = ESpeech _ |- _ => inversion H; subst; exact Hlen end.
Qed.

End AudioMore.

Module MainMore.
Import Main MainFacts MainObs.

Lemma main_try_cases (E : main_env) :
  (exists e, auth_result E = Some e /\ main_try E = ([], Some e)) \/
  (auth_result E = None /\ downloaded E = [] /\
     exists t1, main_try E = (lift t1, None)) \/
  (auth_result E = None /\ downloaded E <> [] /\ api_key_set E = false /\
     exists t1, main_try E = (lift t1, Some (SystemExit 1))) \/
  (auth_result E = None /\ downloaded E <> [] /\ api_key_set E = true /\
     exists t1 t2, main_try E = ((lift t1 ++ MAnalyzeStep :: lift t2)%list, Some ValueError)).
Proof.
  unfold main_try, downloaded.
  destruct (auth_result E) as [e|]; [left; exists e; auto|right].
  destruct (Drive.download_recent_images (drive_env E) DRIVE_FOLDER_ID (num_images E)
              "/tmp/archaeological_agent_") as [paths t1]; simpl.
  destruct paths as [|p ps]; [left; eauto|right].
  destruct (api_key_set E); simpl.
  - right. split; [reflexivity|]. split; [discriminate|]. split; [reflexivity|].
    destruct (Analyzer.analyze_multiple_images (analyzer_world E) (p :: ps))
      as [[[n j] a] t2].
    simpl. exists t1, t2. reflexivity.
  - left. split; [reflexivity|]. split; [discriminate|]. split; [reflexivity|].
    exists t1; reflexivity.
Qed.

Lemma main_events (E : main_env) (m : main_event) :
  In m (snd (run_main E)) ->
  (exists e, m = MIo e) \/ m = MAnalyzeStep \/ (exists e, m = MHandled e) \/ m = MCleanup.
Proof.
  unfold run_main. destruct (num_images E <? 1)%Z; [simpl; tauto|].
  assert (Htr : forall tr, In m tr ->
            (forall x, In x tr -> (exists e, x = MIo e) \/ x = MAnalyzeStep) ->
            (exists e, m = MIo e) \/ m = MAnalyzeStep \/ (exists e, m = MHandled e)
            \/ m = MCleanup)
    by (intros tr Hin Hall; destruct (Hall m Hin); tauto).
  assert (Hlift : forall t x, In x (lift t) -> exists e, x = MIo e).
  { intros t x Hx. unfold lift in Hx. apply in_map_iff in Hx.
    destruct Hx as [e [<- _]]. eauto. }
  destruct (main_try_cases E) as
    [[e [_ ->]]|[[_ [_ [t1 ->]]]|[[_ [_ [_ [t1 ->]]]]|[_ [_ [_ [t1 [t2 ->]]]]]]]];
    cbn -[lift]; [destruct (is_Exception e || _)|..]; cbn -[lift];
    intro Hin; rewrite ?in_app_iff in Hin; simpl in Hin;
    repeat match goal with
           | H : _ \/ _ |- _ => destruct H as [H|H]
           end;
    subst; eauto 6;
    try (left; eapply Hlift; eassumption).
  all: try contradiction.
Qed.

(** Whatever the environment, a run of the entry point never reaches the
    audio, presentation or browser steps (the unpacking of the 3-tuple
    raises before them, and every other path stops earlier), and once the
    [try] block is entered, i.e. for at least one requested image, the
    temporary-directory cleanup of the [finally] clause is the last step. *)
Theorem main_never_reaches_audio (E : main_env) :
  let tr := snd (run_main E) in
  ~ In MAudioStep tr /\ ~ In MPresentationStep tr /\ ~ In MOpenBrowser tr /\
  ((1 <= num_images E)%Z -> exists tr0, tr = (tr0 ++ [MCleanup])%list).
Proof.
  cbv zeta.
  assert (Hno : forall m, (forall e, m <> MIo e) -> (forall e, m <> MHandled e) ->
                  m <> MAnalyzeStep -> m <> MCleanup -> ~ In m (snd (run_main E))).
  { intros m H1 H2 H3 H4 Hin.
    destruct (main_events E m Hin) as [[e He]|[He|[[e He]|He]]];
      [apply (H1 e)|apply H3|apply (H2 e)|apply H4]; exact He. }
  split; [apply Hno; discriminate|].
  split; [apply Hno; discriminate|].
  split; [apply Hno; discriminate|].
  intro Hn. unfold run_main.
  replace (num_images E <? 1)%Z with false by (symmetry; apply Z.ltb_ge; lia).
  destruct (main_try E) as [tr [e|]].
  - destruct (is_Exception e || _).
    + exists (tr ++ [MHandled e])%list. rewrite <- app_assoc. reflexivity.
    + eexists; reflexivity.
  - eexists; reflexivity.
Qed.


End MainMore.

Module DriveMore.
Import PyStr Drive DriveObs TraceObs ConverterMore.

Lemma ins_perm (x : drive_file) (s : list drive_file) : Permutation (ins_desc x s) (x :: s).
Proof.
  induction s as [|y s IH]; simpl; [reflexivity|].
  destruct (String.leb (get_timestamp x) (get_timestamp y)); [|reflexivity].
  rewrite IH. apply perm_swap.
Qed.

Lemma fold_ins_perm (l acc : list drive_file) :
  Permutation (fold_left (fun s x => ins_desc x s) l acc) (app acc l).
Proof.
  revert acc; induction l as [|x l IH]; intro acc; simpl.
  - rewrite app_nil_r. reflexivity.
  - rewrite IH, ins_perm. simpl. apply Permutation_middle.
Qed.

(** The newest-first sort of [download_recent_images] neither loses nor
    duplicates a file: its result is a permutation of its input. *)
Theorem sort_desc_permutation (files : list drive_file) :
  Permutation (sort_desc files) files.
Proof. unfold sort_desc. apply (fold_ins_perm files []). Qed.



End DriveMore.

Module PresentationMore.
Import PyStr Converter Analyzer Presentation.

(** [create_presentation] embeds one slide per image path that exists,
    in the order of the paths, skipping the missing ones: the slide names
    are the base names and the slide data the base64 contents of the
    existing paths, and every slide's MIME type is one of "image/jpeg",
    "image/png", "image/gif" and "image/webp" (unknown extensions fall back
    to "image/jpeg"). A missing audio file gives no audio data and the MIME
    type "audio/mpeg". *)
Theorem slides_of_existing_images (F : fs_env) (image_paths : list string) (audio_path : string) :
  let slides := image_data_list F image_paths in
  map slide_name slides = map basename (filter (path_exists F) image_paths) /\
  map slide_data slides = map (b64_contents F) (filter (path_exists F) image_paths) /\
  (forall s, In s slides ->
     In (slide_mime s) ["image/jpeg"; "image/png"; "image/gif"; "image/webp"]) /\
  (path_exists F audio_path = false -> audio_part F audio_path = (None, "audio/mpeg")).
Proof.
  cbv zeta. split; [|split; [|split]].
  - induction image_paths as [|p ps IH]; [reflexivity|]. simpl.
    destruct (path_exists F p); simpl; rewrite IH; reflexivity.
  - induction image_paths as [|p ps IH]; [reflexivity|]. simpl.
    destruct (path_exists F p); simpl; rewrite IH; reflexivity.
  - induction image_paths as [|p ps IH]; intros s Hs; [destruct Hs|]. simpl in Hs.
    destruct (path_exists F p); [|apply IH; exact Hs].
    destruct Hs as [<-|Hs]; [|apply IH; exact Hs].
    simpl. unfold image_mime.
    repeat match goal with |- context [if ?b then _ else _] => destruct b end;
      simpl; tauto.
  - intro H. unfold audio_part. rewrite H. reflexivity.
Qed.

End PresentationMore.

(** ** Instances of the further properties at concrete inputs *)

Module ExtraWitnesses.
Import PyStr Converter Analyzer PipelineObs DriveObs TraceObs Samples.

Lemma artifacts_of_findings_witness :
  snd (fst (analyze_multiple_images W_demo ["a.jpg"; "b.png"; "c.JPEG"]))
  = JArr (extract_fallback (findings W_demo 1 ["a.jpg"; "b.png"; "c.JPEG"])).
Proof.
  apply (PipelineMore.artifacts_of_findings W_demo ["a.jpg"; "b.png"; "c.JPEG"]).
  vm_compute. discriminate.
Defined.

Lemma fallback_no_keyword_witness :
  extract_fallback ["A flat grey stone."; "Tire tracks in the MUD."] = [].
Proof.
  apply FallbackMore.fallback_no_keyword.
  intros a k Ha Hk. simpl in Ha, Hk.
  destruct Ha as [<-|[<-|[]]];
    destruct Hk as [<-|[<-|[<-|[<-|[<-|[<-|[<-|[]]]]]]]]; vm_compute; reflexivity.
Defined.


End ExtraWitnesses.
